(** * Access control of ChatGPT-Admin-Web: session tokens and request limits

    A shallow embedding of
    [packages/database/src/models/access_control.ts] (class
    [AccessControlDAL]) over a model of the Redis commands it issues, and
    the properties of its session manager and rate limiter. *)

From Stdlib Require Import ZArith String Ascii List Lia.
From Stdlib.Strings Require Import Byte.
From stdpp Require Import base option list sorting strings gmap.

Local Open Scope Z_scope.

(** ** JavaScript strings

    A string is the sequence of its code units; the model keeps the code
    units below 256, which is where every character the program writes
    itself (['@'], [':'], the key prefixes, hexadecimal digits) lives. *)
Module JsString.

(** [String.prototype.startsWith]. *)
Fixpoint startsWith (search s : string) : bool :=
  match search, s with
  | EmptyString, _ => true
  | String a search', String b s' =>
      if Ascii.eqb a b then startsWith search' s' else false
  | String _ _, EmptyString => false
  end.

(** [String.prototype.includes]: [search] occurs somewhere in [s]. *)
Fixpoint includes (search s : string) : bool :=
  startsWith search s ||
  match s with
  | EmptyString => false
  | String _ s' => includes search s'
  end.

(** WhiteSpace and LineTerminator code units below 256: TAB, LF, VT, FF,
    CR, SP and NBSP. *)
Definition isWhiteSpace (c : ascii) : bool :=
  match N_of_ascii c with
  | 9 | 10 | 11 | 12 | 13 | 32 | 160 => true
  | _ => false
  end%N.

Fixpoint trimStart (s : string) : string :=
  match s with
  | EmptyString => EmptyString
  | String c s' => if isWhiteSpace c then trimStart s' else s
  end.

Fixpoint trimEnd (s : string) : string :=
  match s with
  | EmptyString => EmptyString
  | String c s' =>
      match trimEnd s' with
      | EmptyString => if isWhiteSpace c then EmptyString else String c EmptyString
      | r => String c r
      end
  end.

(** [String.prototype.trim]. *)
Definition trim (s : string) : string := trimEnd (trimStart s).

(** No code unit of [s] is white space. *)
Fixpoint noWhiteSpace (s : string) : bool :=
  match s with
  | EmptyString => true
  | String c s' => negb (isWhiteSpace c) && noWhiteSpace s'
  end.

End JsString.

(** ** The hexadecimal digest string of [spark-md5]

    [md5.hash(str)] returns the digest of [str] written as lower-case
    hexadecimal digits, two per byte.  The digest function itself belongs
    to the library and stays a parameter of the development; the encoding
    of its result is fixed here. *)
Module Hex.

Definition digit (n : N) : ascii :=
  match n with
  | 0 => "0" | 1 => "1" | 2 => "2" | 3 => "3" | 4 => "4" | 5 => "5"
  | 6 => "6" | 7 => "7" | 8 => "8" | 9 => "9" | 10 => "a" | 11 => "b"
  | 12 => "c" | 13 => "d" | 14 => "e" | _ => "f"
  end%N%char.

Definition ofByte (b : byte) (rest : string) : string :=
  let n := Byte.to_N b in
  String (digit (n / 16)) (String (digit (n mod 16)) rest).

Definition encode (bs : list byte) : string := foldr ofByte EmptyString bs.

End Hex.

(** ** The store

    [Model.SessionToken], the value of the hash kept under
    [sessionToken:<token>]. *)
Record SessionToken : Type := {
  createdAt : Z;
  isRevoked : bool;
  userEmail : string
}.

(** The Redis database as this program uses it.  Hashes live under keys
    [sessionToken:...] and sorted sets under keys [limit:...]; the two
    prefixes never produce the same key, so each kind has its own key
    space.  Every sorted-set entry the program writes has its score equal
    to its member (a millisecond timestamp), so a sorted set is the finite
    set of its members and its score order is their numeric order.
    [ttls] holds the time to live, in seconds, of the keys that have one. *)
Record Redis : Type := {
  hashes : gmap string SessionToken;
  zsets : gmap string (gset Z);
  ttls : gmap string Z
}.

(** Awaited store calls thread the database: a state monad. *)
Definition Async (A : Type) : Type := Redis → A * Redis.

Definition ret {A} (a : A) : Async A := λ db, (a, db).

Definition bind {A B} (c : Async A) (k : A → Async B) : Async B :=
  λ db, let (a, db') := c db in k a db'.

Notation "'await' x ← c ;; k" := (bind c (λ x, k))
  (at level 100, x name, c at level 99, k at level 100, right associativity,
   format "'[v' 'await'  x  ←  c  ;;  '/' k ']'").

(** The client [redis] of [../redis/client] is not part of this file.  Its
    commands are modelled here after the store operations the spec lists
    (hash set and get-all, sorted-set add, removal by score range, range
    query, removal by rank, key expiry, pipelined execution), with the
    meaning Redis gives them. *)
Module redis.

Definition members (key : string) (db : Redis) : gset Z :=
  default ∅ (zsets db !! key).

(** Members in score order, rank 0 first. *)
Definition ranked (z : gset Z) : list Z := merge_sort Z.le (elements z).

(** A key exists when it holds a hash or a non-empty sorted set. *)
Definition exists_ (key : string) (db : Redis) : bool :=
  bool_decide (is_Some (hashes db !! key)) ||
  bool_decide (members key db ≠ ∅).

(** Writing a sorted set back: Redis drops a key whose set became
    empty, together with its time to live. *)
Definition putMembers (key : string) (z : gset Z) (db : Redis) : Redis :=
  if decide (z = ∅) then
    {| hashes := hashes db;
       zsets := delete key (zsets db);
       ttls := delete key (ttls db) |}
  else
    {| hashes := hashes db; zsets := <[key := z]> (zsets db); ttls := ttls db |}.

(** The inclusive rank interval [start..stop] of a sequence of [len]
    elements, negative ranks counting from the end: first rank and
    number of ranks. *)
Definition rankRange (len start stop : Z) : Z * Z :=
  let start := if start <? 0 then len + start else start in
  let stop := if stop <? 0 then len + stop else stop in
  let start := if start <? 0 then 0 else start in
  if (stop <? start) || (len <=? start) then (0, 0)
  else
    let stop := if len <=? stop then len - 1 else stop in
    (start, stop - start + 1).

Definition slice (start stop : Z) (l : list Z) : list Z :=
  let '(first, count) := rankRange (Z.of_nat (length l)) start stop in
  take (Z.to_nat count) (drop (Z.to_nat first) l).

(** Modelled from the spec: the client's hash set.  HMSET with all three
    fields of a [SessionToken] writes the whole record. *)
Definition hmset (key : string) (v : SessionToken) : Async unit :=
  λ db, (tt, {| hashes := <[key := v]> (hashes db);
                zsets := zsets db; ttls := ttls db |}).

(** Modelled from the spec: the client's hash get-all.  HGETALL hands the
    fields back as they were written; the client answers [null] for a key
    without a hash. *)
Definition hgetall (key : string) : Async (option SessionToken) :=
  λ db, (hashes db !! key, db).

(** Modelled from the spec: the client's key expiry.  EXPIRE sets the
    time to live of an existing key and answers 1, answers 0 for a missing
    key. *)
Definition expire (key : string) (seconds : Z) : Async Z :=
  λ db, if exists_ key db
        then (1, {| hashes := hashes db; zsets := zsets db;
                    ttls := <[key := seconds]> (ttls db) |})
        else (0, db).

(** Modelled from the spec: the client's sorted-set add.  ZADD of one
    entry whose [member] and [score] are both [timestamp]. *)
Definition zadd (key : string) (timestamp : Z) : Async unit :=
  λ db, (tt, putMembers key ({[timestamp]} ∪ members key db) db).

(** Modelled from the spec: the client's removal by score range.
    ZREMRANGEBYSCORE drops the members with [min <= score <= max]. *)
Definition zremrangebyscore (key : string) (min max : Z) : Async unit :=
  λ db, (tt, putMembers key
               (filter (λ m, ¬ (min ≤ m ≤ max)) (members key db)) db).

(** Modelled from the spec: the client's removal by rank.
    ZREMRANGEBYRANK drops the members of rank [start..stop]. *)
Definition zremrangebyrank (key : string) (start stop : Z) : Async unit :=
  λ db, (tt, putMembers key
               (members key db ∖
                  list_to_set (slice start stop (ranked (members key db)))) db).

(** Modelled from the spec: the client's range query.  ZRANGE answers the
    members of rank [start..stop], in score order. *)
Definition zrange (key : string) (start stop : Z) : Async (list Z) :=
  λ db, (slice start stop (ranked (members key db)), db).

(** Modelled from the spec: the client's pipelined execution.  A pipeline
    queues commands and [exec] runs them in order, answering the list of
    their results; the program only queues ZRANGE. *)
Inductive Command : Type :=
| ZRANGE (key : string) (start stop : Z).

Definition run (c : Command) : Async (list Z) :=
  match c with ZRANGE key start stop => zrange key start stop end.

Fixpoint exec (p : list Command) : Async (list (list Z)) :=
  match p with
  | [] => ret []
  | c :: p' =>
      await r ← run c ;;
      await rs ← exec p' ;;
      ret (r :: rs)
  end.

End redis.

(** ** The class [AccessControlDAL] *)

(** The two private fields of an instance. *)
Record AccessControlDAL : Type := {
  emailOrIP : string;
  isIP : bool
}.

(** The constructor; [isIP] is a parameter whose default value, taken when
    the caller passes none, is [!emailOrIP.includes('@')]. *)
Definition new_AccessControlDAL (emailOrIP : string) (isIP : option bool)
  : AccessControlDAL :=
  {| emailOrIP := emailOrIP;
     isIP := default (negb (JsString.includes "@" emailOrIP)) isIP |}.

Definition sessionTokenKey (token : string) : string := "sessionToken:" +:+ token.
Definition limitKey (emailOrIP : string) : string := "limit:" +:+ emailOrIP.

(** Window lengths in milliseconds, as the source writes them. *)
Definition freeWindow : Z := 60 * 60 * 1000.
Definition paidWindow : Z := 3 * 60 * 60 * 1000.
(** One day in seconds. *)
Definition sessionTtl : Z := 24 * 60 * 60.

Section AccessControl.

(** The MD5 digest computed by [spark-md5]. *)
Variable md5_digest : string → list byte.

(** [Date.prototype.toString] of the date whose time value is the given
    clock reading; it depends on the host's time zone. *)
Variable dateToString : Z → string.

(** Modelled from the spec: [UserDAL.getPlan] (models/user.ts) is not
    part of this file; it is the plan service
    [getPlan(identity) → "free" | "pro" | "premium" | ...], a lookup that
    leaves session records and request timestamps alone. *)
Variable getPlan : string → string.

(** [md5.hash]. *)
Definition md5_hash (s : string) : string := Hex.encode (md5_digest s).

(** The token [newSessionToken] makes for an identity when [new Date()]
    reads [date]. *)
Definition tokenOf (emailOrIP : string) (date : Z) : string :=
  md5_hash (emailOrIP +:+ ":" +:+ dateToString date).

(** The methods take the clock readings they make as arguments: [date]
    is the reading of [new Date()], [now] that of [Date.now()]. *)

Definition newSessionToken (this : AccessControlDAL) (date now : Z)
  : Async (option string) :=
  if isIP this then ret None
  else
    let token := md5_hash (emailOrIP this +:+ ":" +:+ dateToString date) in
    let sessionToken :=
      {| createdAt := now; isRevoked := false; userEmail := emailOrIP this |} in
    await _ ← redis.hmset (sessionTokenKey token) sessionToken ;;
    await _ ← redis.expire (sessionTokenKey token) sessionTtl ;;
    ret (Some token).

Definition validateSessionToken (this : AccessControlDAL) (token : string)
  : Async (option string) :=
  if isIP this then ret None
  else
    await sessionToken ← redis.hgetall (sessionTokenKey (JsString.trim token)) ;;
    match sessionToken with
    | None => ret None
    | Some sessionToken =>
        if isRevoked sessionToken then ret None
        else
          await _ ← redis.expire (sessionTokenKey (JsString.trim token)) sessionTtl ;;
          ret (Some (userEmail sessionToken))
    end.

Definition getRequestsTimeStamp (this : AccessControlDAL) (now : Z)
  : Async (list Z) :=
  let key := limitKey (emailOrIP this) in
  let plan := getPlan (emailOrIP this) in
  await _ ← (if String.eqb plan "free"
             then redis.zremrangebyscore key 0 (now - freeWindow)
             else redis.zremrangebyscore key 0 (now - paidWindow)) ;;
  redis.zrange key 0 (-1).

Definition newRequest (this : AccessControlDAL) (now : Z) : Async Z :=
  let key := limitKey (emailOrIP this) in
  let timestamp := now in
  await _ ← redis.zadd key timestamp ;;
  ret timestamp.

(** The static method: [forEach] queues one ZRANGE per argument, in
    order, and the pipeline is executed. *)
Definition getRequestsTimeStampsOf (emailOrIPs : list string)
  : Async (list (list Z)) :=
  let pipeline :=
    fold_left (λ p emailOrIP, p ++ [redis.ZRANGE (limitKey emailOrIP) 0 (-1)])
              emailOrIPs [] in
  redis.exec pipeline.

Definition resetLimit (this : AccessControlDAL) : Async (list Z) :=
  let key := limitKey (emailOrIP this) in
  await _ ← redis.zremrangebyrank key 0 (-1) ;;
  redis.zrange key 0 (-1).

(** [N] calls of [newRequest], one per clock reading, oldest first. *)
Fixpoint newRequests (this : AccessControlDAL) (clock : list Z)
  : Async (list Z) :=
  match clock with
  | [] => ret []
  | now :: clock' =>
      await t ← newRequest this now ;;
      await ts ← newRequests this clock' ;;
      ret (t :: ts)
  end.

End AccessControl.

(** The pruning window that goes with a plan tier, in milliseconds: one
    hour for ["free"], three hours for every other tier. *)
Definition planWindow (plan : string) : Z :=
  if String.eqb plan "free" then freeWindow else paidWindow.

(** The store before anything was written. *)
Definition emptyRedis : Redis := {| hashes := ∅; zsets := ∅; ttls := ∅ |}.

(** A session record marked revoked in the store by hand (HSET of the
    field [isRevoked]); the program itself never writes [true] there. *)
Definition markRevoked (token : string) (db : Redis) : Redis :=
  {| hashes := alter (λ r, {| createdAt := createdAt r; isRevoked := true;
                              userEmail := userEmail r |})
                     (sessionTokenKey token) (hashes db);
     zsets := zsets db; ttls := ttls db |}.

(** What the spec calls an email identity: the string has an ['@'] in it. *)
Definition containsAt (s : string) : Prop :=
  ∃ pre post : string, s = pre +:+ "@" +:+ post.

(** Sample collaborators, used to evaluate the methods on concrete inputs. *)
Definition sampleDigest (s : string) : list byte :=
  [x00; xff; x3a; xc4]%byte.
Definition sampleDate (t : Z) : string := "Tue Nov 03 2026 03:19:00 GMT+0000".
Definition samplePlan (identity : string) : string :=
  if String.eqb identity "a@b.com" then "free" else "pro".

(** ** Callers

    A caller of the class builds an instance for an identity, with the
    default [isIP], and calls one method on it. *)
Inductive Call : Type :=
| NewSessionToken (emailOrIP : string) (date now : Z)
| ValidateSessionToken (emailOrIP token : string)
| GetRequestsTimeStamp (emailOrIP : string) (now : Z)
| NewRequest (emailOrIP : string) (now : Z)
| GetRequestsTimeStampsOf (emailOrIPs : list string)
| ResetLimit (emailOrIP : string).

Section Callers.

Variable md5_digest : string → list byte.
Variable dateToString : Z → string.
Variable getPlan : string → string.

(** The store a call leaves behind. *)
Definition perform (c : Call) (db : Redis) : Redis :=
  match c with
  | NewSessionToken E date now =>
      snd (newSessionToken md5_digest dateToString
             (new_AccessControlDAL E None) date now db)
  | ValidateSessionToken E token =>
      snd (validateSessionToken (new_AccessControlDAL E None) token db)
  | GetRequestsTimeStamp E now =>
      snd (getRequestsTimeStamp getPlan (new_AccessControlDAL E None) now db)
  | NewRequest E now =>
      snd (newRequest (new_AccessControlDAL E None) now db)
  | GetRequestsTimeStampsOf Es =>
      snd (getRequestsTimeStampsOf Es db)
  | ResetLimit E =>
      snd (resetLimit (new_AccessControlDAL E None) db)
  end.

(** The store after a history of calls, oldest first.  The store's clock
    stands still over a history: a time to live is set but not counted
    down, and no key expires. *)
Definition performAll (calls : list Call) (db : Redis) : Redis :=
  foldl (λ db c, perform c db) db calls.

End Callers.

(** Every hash is a live session: kept under a [sessionToken:] key, owned
    by an identity with an ['@'], not revoked and carrying a time to
    live. *)
Definition sessionsWellFormed (db : Redis) : Prop :=
  ∀ (key : string) (r : SessionToken),
    hashes db !! key = Some r →
    (∃ token : string, key = sessionTokenKey token) ∧
    containsAt (userEmail r) ∧
    isRevoked r = false ∧
    is_Some (ttls db !! key).

(** Sorted sets are kept under [limit:] keys, none of them empty, and
    only session records carry a time to live. *)
Definition limitsWellFormed (db : Redis) : Prop :=
  (∀ (key : string) (z : gset Z),
     zsets db !! key = Some z →
     (∃ emailOrIP : string, key = limitKey emailOrIP) ∧ z ≠ ∅) ∧
  (∀ (key : string) (seconds : Z),
     ttls db !! key = Some seconds → is_Some (hashes db !! key)).

(** ** Strings *)
Section Strings.
Import JsString.

Lemma startsWith_at (s : string) :
  startsWith "@" s = true ↔ ∃ post, s = String "@" post.
Proof.
  destruct s as [|c s]; cbn [startsWith].
  - split; [discriminate | intros [? ?]; discriminate].
  - destruct (Ascii.eqb "@" c) eqn:Hc.
    + apply Ascii.eqb_eq in Hc as <-. split; eauto.
    + apply Ascii.eqb_neq in Hc.
      split; [discriminate | intros [? [= ? ?]]; congruence].
Qed.

Lemma includes_at (s : string) : includes "@" s = true ↔ containsAt s.
Proof.
  split.
  - induction s as [|c s IH]; [discriminate|].
    cbn [includes]. intros [Hs | Hs]%orb_true_iff.
    + apply startsWith_at in Hs as [post ->]. by exists "", post.
    + destruct (IH Hs) as (pre & post & ->). by exists (String c pre), post.
  - intros (pre & post & ->). induction pre as [|c pre IH].
    + reflexivity.
    + change (String c pre +:+ "@" +:+ post)
        with (String c (pre +:+ "@" +:+ post)).
      cbn [includes]. rewrite IH. apply orb_true_r.
Qed.

Lemma trimStart_noWhiteSpace (s : string) :
  noWhiteSpace s = true → trimStart s = s.
Proof.
  destruct s as [|c s]; [done|]. simpl.
  by destruct (isWhiteSpace c).
Qed.

Lemma trimEnd_noWhiteSpace (s : string) :
  noWhiteSpace s = true → trimEnd s = s.
Proof.
  induction s as [|c s IH]; [done|]. simpl.
  destruct (isWhiteSpace c); [done|]. simpl. intros Hs.
  rewrite (IH Hs). by destruct s.
Qed.

Lemma trim_noWhiteSpace (s : string) : noWhiteSpace s = true → trim s = s.
Proof.
  intros Hs. unfold trim.
  by rewrite (trimStart_noWhiteSpace _ Hs), (trimEnd_noWhiteSpace _ Hs).
Qed.

Lemma digit_not_white (n : N) : isWhiteSpace (Hex.digit n) = false.
Proof.
  destruct n as [|p]; [reflexivity|].
  do 4 (destruct p as [p|p|]; try reflexivity).
Qed.

Lemma encode_noWhiteSpace (bs : list byte) :
  noWhiteSpace (Hex.encode bs) = true.
Proof.
  induction bs as [|b bs IH]; [done|].
  change (Hex.encode (b :: bs)) with (Hex.ofByte b (Hex.encode bs)).
  unfold Hex.ofByte. cbn [noWhiteSpace].
  by rewrite !digit_not_white, IH.
Qed.

(** A token made by [md5.hash] is its own trimmed form. *)
Lemma trim_encode (bs : list byte) : trim (Hex.encode bs) = Hex.encode bs.
Proof. apply trim_noWhiteSpace, encode_noWhiteSpace. Qed.

End Strings.

(** ** Sorted sets *)
Section SortedSets.
Import redis.

Lemma elem_of_ranked (z : gset Z) (m : Z) : m ∈ ranked z ↔ m ∈ z.
Proof.
  unfold ranked. rewrite merge_sort_Permutation. apply elem_of_elements.
Qed.

Lemma NoDup_ranked (z : gset Z) : NoDup (ranked z).
Proof.
  unfold ranked. rewrite merge_sort_Permutation. apply NoDup_elements.
Qed.

Lemma StronglySorted_le_lt (l : list Z) :
  StronglySorted Z.le l → NoDup l → StronglySorted Z.lt l.
Proof.
  induction 1 as [|x l Hl IH Hx]; intros Hnd; [constructor|].
  apply NoDup_cons in Hnd as [Hnotin Hnd].
  constructor; [by apply IH|].
  apply Forall_forall. intros y Hy.
  rewrite Forall_forall in Hx. specialize (Hx y Hy).
  assert (x ≠ y) by (by intros ->).
  lia.
Qed.

Lemma StronglySorted_lt_le (l : list Z) :
  StronglySorted Z.lt l → StronglySorted Z.le l.
Proof.
  induction 1 as [|x l Hl IH Hx]; constructor; [done|].
  eapply Forall_impl; [exact Hx|]. intros; simpl in *; lia.
Qed.

Lemma StronglySorted_lt_NoDup (l : list Z) : StronglySorted Z.lt l → NoDup l.
Proof.
  induction 1 as [|x l Hl IH Hx]; constructor; [|done].
  intros Hin. rewrite Forall_forall in Hx. specialize (Hx x Hin). lia.
Qed.

(** Rank order is strictly ascending: scores of distinct members differ. *)
Lemma ranked_ascending (z : gset Z) : StronglySorted Z.lt (ranked z).
Proof.
  apply StronglySorted_le_lt; [|apply NoDup_ranked].
  apply StronglySorted_merge_sort; apply _.
Qed.

Lemma ranked_empty : ranked ∅ = [].
Proof. reflexivity. Qed.

(** An ascending list is the rank order of its own set of elements. *)
Lemma ranked_list_to_set (l : list Z) :
  StronglySorted Z.lt l → ranked (list_to_set l) = l.
Proof.
  intros Hl. apply (StronglySorted_unique Z.le).
  - apply StronglySorted_lt_le, ranked_ascending.
  - by apply StronglySorted_lt_le.
  - apply NoDup_Permutation.
    + apply NoDup_ranked.
    + by apply StronglySorted_lt_NoDup.
    + intros m. by rewrite elem_of_ranked, elem_of_list_to_set.
Qed.

(** Ranks [0..-1] are all the ranks. *)
Lemma slice_all (l : list Z) : slice 0 (-1) l = l.
Proof.
  unfold slice, rankRange. cbn [Z.ltb Z.compare].
  destruct l as [|x l]; [reflexivity|].
  set (len := Z.of_nat (length (x :: l))).
  assert (0 < len) by (unfold len; simpl; lia).
  replace (len + -1 <? 0) with false by (symmetry; apply Z.ltb_ge; lia).
  replace (len <=? 0) with false by (symmetry; apply Z.leb_gt; lia).
  replace (len <=? len + -1) with false by (symmetry; apply Z.leb_gt; lia).
  cbn [orb]. replace (len + -1 - 0 + 1) with len by lia.
  unfold len. rewrite Nat2Z.id. cbn [Z.to_nat drop]. apply firstn_all.
Qed.

Lemma zrange_all (key : string) (db : Redis) :
  zrange key 0 (-1) db = (ranked (members key db), db).
Proof. unfold zrange. by rewrite slice_all. Qed.

Lemma members_putMembers (key : string) (z : gset Z) (db : Redis) :
  members key (putMembers key z db) = z.
Proof.
  unfold putMembers, members. case_decide as Hz; simpl.
  - by rewrite lookup_delete_eq.
  - by rewrite lookup_insert_eq.
Qed.

Lemma members_putMembers_ne (key key' : string) (z : gset Z) (db : Redis) :
  key ≠ key' → members key' (putMembers key z db) = members key' db.
Proof.
  intros Hne. unfold putMembers, members. case_decide as Hz; simpl.
  - by rewrite lookup_delete_ne.
  - by rewrite lookup_insert_ne.
Qed.

Lemma hashes_putMembers (key : string) (z : gset Z) (db : Redis) :
  hashes (putMembers key z db) = hashes db.
Proof. unfold putMembers. by case_decide. Qed.

Lemma zsets_putMembers_empty (key : string) (db : Redis) :
  zsets (putMembers key ∅ db) !! key = None.
Proof.
  unfold putMembers. rewrite decide_True by done. simpl.
  apply lookup_delete_eq.
Qed.

(** Removing ranks [0..-1] removes every member. *)
Lemma remove_all_ranks (z : gset Z) :
  z ∖ list_to_set (slice 0 (-1) (ranked z)) = ∅.
Proof.
  rewrite slice_all. apply set_eq. intros m.
  rewrite elem_of_difference, elem_of_list_to_set, elem_of_ranked, elem_of_empty.
  tauto.
Qed.

End SortedSets.

(** ** Session manager *)
Section Sessions.
Variable md5_digest : string → list byte.
Variable dateToString : Z → string.

Lemma isIP_email (E : string) :
  containsAt E → isIP (new_AccessControlDAL E None) = false.
Proof. intros HE%includes_at. simpl. by rewrite HE. Qed.

Lemma isIP_ip (E : string) :
  ¬ containsAt E → isIP (new_AccessControlDAL E None) = true.
Proof.
  intros HE. simpl. destruct (JsString.includes "@" E) eqn:Hi; [|done].
  by apply includes_at in Hi.
Qed.

(** Both session methods leave at their first line on the IP branch. *)
Lemma newSessionToken_ip this date now db :
  isIP this = true →
  newSessionToken md5_digest dateToString this date now db = (None, db).
Proof. intros Hip. unfold newSessionToken. by rewrite Hip. Qed.

Lemma validateSessionToken_ip this token db :
  isIP this = true → validateSessionToken this token db = (None, db).
Proof. intros Hip. unfold validateSessionToken. by rewrite Hip. Qed.

(** The effect of [newSessionToken] on the email branch, in one step. *)
Lemma newSessionToken_email this date now db :
  isIP this = false →
  let token := tokenOf md5_digest dateToString (emailOrIP this) date in
  newSessionToken md5_digest dateToString this date now db =
    (Some token,
     {| hashes :=
          <[sessionTokenKey token :=
              {| createdAt := now; isRevoked := false;
                 userEmail := emailOrIP this |}]> (hashes db);
        zsets := zsets db;
        ttls := <[sessionTokenKey token := sessionTtl]> (ttls db) |}).
Proof.
  intros Hip token. unfold token, newSessionToken, tokenOf. rewrite Hip.
  unfold bind, redis.hmset, redis.expire, redis.exists_, ret. simpl.
  rewrite lookup_insert_eq.
  by rewrite bool_decide_eq_true_2 by eauto.
Qed.

(** The three outcomes of [validateSessionToken] on the email branch. *)
Lemma validateSessionToken_email this token db :
  isIP this = false →
  validateSessionToken this token db =
    match hashes db !! sessionTokenKey (JsString.trim token) with
    | None => (None, db)
    | Some r =>
        if isRevoked r then (None, db)
        else (Some (userEmail r),
              {| hashes := hashes db; zsets := zsets db;
                 ttls := <[sessionTokenKey (JsString.trim token) := sessionTtl]>
                           (ttls db) |})
    end.
Proof.
  intros Hip. unfold validateSessionToken. rewrite Hip.
  unfold bind, redis.hgetall, redis.expire, redis.exists_, ret.
  destruct (hashes db !! sessionTokenKey (JsString.trim token)) as [r|] eqn:Hr;
    [|done].
  destruct (isRevoked r); [done|]. simpl. rewrite Hr.
  by rewrite bool_decide_eq_true_2 by eauto.
Qed.

Lemma trim_tokenOf (E : string) (date : Z) :
  JsString.trim (tokenOf md5_digest dateToString E date)
  = tokenOf md5_digest dateToString E date.
Proof. apply trim_encode. Qed.

Lemma hashes_markRevoked (token : string) (db : Redis) :
  hashes (markRevoked token db) !! sessionTokenKey token =
    (λ r, {| createdAt := createdAt r; isRevoked := true;
             userEmail := userEmail r |}) <$> hashes db !! sessionTokenKey token.
Proof. unfold markRevoked. simpl. apply lookup_alter_eq. Qed.

End Sessions.

(** ** Rate limiter *)
Section Limits.
Variable getPlan : string → string.

Lemma newRequest_eq this now db :
  newRequest this now db =
    (now, redis.putMembers (limitKey (emailOrIP this))
            ({[now]} ∪ redis.members (limitKey (emailOrIP this)) db) db).
Proof. reflexivity. Qed.

Lemma getRequestsTimeStamp_eq this now db :
  getRequestsTimeStamp getPlan this now db =
    let key := limitKey (emailOrIP this) in
    let window :=
      if String.eqb (getPlan (emailOrIP this)) "free" then freeWindow
      else paidWindow in
    let kept := filter (λ m, ¬ (0 ≤ m ≤ now - window)) (redis.members key db) in
    (redis.ranked kept, redis.putMembers key kept db).
Proof.
  unfold getRequestsTimeStamp, bind.
  destruct (String.eqb _ _); unfold redis.zremrangebyscore;
    cbv zeta; rewrite zrange_all; by rewrite members_putMembers.
Qed.

Lemma resetLimit_eq this db :
  resetLimit this db = ([], redis.putMembers (limitKey (emailOrIP this)) ∅ db).
Proof.
  unfold resetLimit, bind, redis.zremrangebyrank.
  rewrite remove_all_ranks, zrange_all. by rewrite members_putMembers.
Qed.

(** The calls of [newRequests] return their clock readings and add them
    to the identity's set. *)
Lemma newRequests_eq this clock db :
  fst (newRequests this clock db) = clock ∧
  redis.members (limitKey (emailOrIP this)) (snd (newRequests this clock db)) =
    list_to_set clock ∪ redis.members (limitKey (emailOrIP this)) db.
Proof.
  revert db. induction clock as [|now clock IH]; intros db.
  - simpl. split; [done|]. by rewrite (left_id_L ∅ (∪)).
  - cbn [newRequests]. unfold bind. rewrite newRequest_eq.
    specialize (IH (redis.putMembers (limitKey (emailOrIP this))
      ({[now]} ∪ redis.members (limitKey (emailOrIP this)) db) db)).
    destruct (newRequests this clock _) as [ts db'] eqn:Hrec.
    simpl in *. destruct IH as [-> ->]. split; [done|].
    rewrite members_putMembers. apply set_eq. intros m.
    cbn [list_to_set]. rewrite !elem_of_union. tauto.
Qed.

End Limits.

(** The pipeline built by [forEach] holds one ZRANGE per identity, in
    the order of the arguments. *)
Lemma pipeline_eq (emailOrIPs : list string) (p : list redis.Command) :
  fold_left (λ p emailOrIP, p ++ [redis.ZRANGE (limitKey emailOrIP) 0 (-1)])
            emailOrIPs p
  = p ++ map (λ emailOrIP, redis.ZRANGE (limitKey emailOrIP) 0 (-1)) emailOrIPs.
Proof.
  revert p. induction emailOrIPs as [|e es IH]; intros p; simpl.
  - by rewrite app_nil_r.
  - rewrite IH. by rewrite <- app_assoc.
Qed.

Lemma exec_zranges (emailOrIPs : list string) (db : Redis) :
  redis.exec (map (λ emailOrIP, redis.ZRANGE (limitKey emailOrIP) 0 (-1)) emailOrIPs) db
  = (map (λ emailOrIP, redis.ranked (redis.members (limitKey emailOrIP) db)) emailOrIPs,
     db).
Proof.
  induction emailOrIPs as [|e es IH]; [done|].
  cbn [map redis.exec redis.run]. unfold bind at 1. rewrite zrange_all.
  unfold bind at 1. by rewrite IH.
Qed.

(** ** The session manager's properties *)

(** C1: for every email identity [E] (a string with an ['@'] in it),
    [newSessionToken()] returns a token, and [validateSessionToken] called
    with that token right afterwards returns [E], the [userEmail] of the
    session record. *)
Theorem new_then_validate_returns_email
  (md5_digest : string → list byte) (dateToString : Z → string)
  (E : string) (date now : Z) (db : Redis) :
  containsAt E →
  ∃ (token : string) (db' : Redis),
    newSessionToken md5_digest dateToString
      (new_AccessControlDAL E None) date now db = (Some token, db') ∧
    hashes db' !! sessionTokenKey token =
      Some {| createdAt := now; isRevoked := false; userEmail := E |} ∧
    fst (validateSessionToken (new_AccessControlDAL E None) token db') = Some E.
Proof.
  intros HE. pose proof (isIP_email E HE) as Hip.
  eexists _, _. split; [by apply newSessionToken_email|].
  cbn [emailOrIP new_AccessControlDAL].
  rewrite validateSessionToken_email by done.
  rewrite trim_tokenOf. cbn [hashes]. rewrite lookup_insert_eq. done.
Qed.

Lemma new_then_validate_returns_email_witness :
  containsAt "a@b.com" ∧
  ∃ (token : string) (db' : Redis),
    newSessionToken sampleDigest sampleDate
      (new_AccessControlDAL "a@b.com" None) 5 6 emptyRedis = (Some token, db') ∧
    hashes db' !! sessionTokenKey token =
      Some {| createdAt := 6; isRevoked := false; userEmail := "a@b.com" |} ∧
    fst (validateSessionToken (new_AccessControlDAL "a@b.com" None) token db')
      = Some "a@b.com".
Proof.
  split; [by exists "a", "b.com"|].
  apply (new_then_validate_returns_email sampleDigest sampleDate "a@b.com" 5 6
           emptyRedis).
  by exists "a", "b.com".
Defined.

(** C2: for an email identity and any token string, [validateSessionToken]
    looks up the hash under the trimmed token and returns nothing, leaving
    the store as it was, both when there is no record and when the record
    has [isRevoked] set; so once a record has been marked revoked in the
    store, validating its token returns nothing. *)
Theorem validate_nothing_when_absent_or_revoked
  (E token : string) (db : Redis) :
  containsAt E →
  let this := new_AccessControlDAL E None in
  let key := sessionTokenKey (JsString.trim token) in
  (hashes db !! key = None → validateSessionToken this token db = (None, db)) ∧
  (∀ r : SessionToken,
     hashes db !! key = Some r → isRevoked r = true →
     validateSessionToken this token db = (None, db)) ∧
  fst (validateSessionToken this token (markRevoked (JsString.trim token) db))
    = None.
Proof.
  intros HE this key. pose proof (isIP_email E HE) as Hip.
  split; [|split].
  - intros Hnone. unfold this. rewrite validateSessionToken_email by done.
    fold key. by rewrite Hnone.
  - intros r Hr Hrev. unfold this. rewrite validateSessionToken_email by done.
    fold key. by rewrite Hr, Hrev.
  - unfold this. rewrite validateSessionToken_email by done.
    rewrite hashes_markRevoked.
    by destruct (hashes db !! sessionTokenKey (JsString.trim token)).
Qed.

Lemma validate_nothing_when_absent_or_revoked_witness :
  containsAt "a@b.com" ∧
  let this := new_AccessControlDAL "a@b.com" None in
  let db := snd (newSessionToken sampleDigest sampleDate this 5 6 emptyRedis) in
  let key := sessionTokenKey (JsString.trim "  00ff3ac4 ") in
  (hashes db !! key = None →
   validateSessionToken this "  00ff3ac4 " db = (None, db)) ∧
  (∀ r : SessionToken,
     hashes db !! key = Some r → isRevoked r = true →
     validateSessionToken this "  00ff3ac4 " db = (None, db)) ∧
  fst (validateSessionToken this "  00ff3ac4 "
         (markRevoked (JsString.trim "  00ff3ac4 ") db)) = None.
Proof.
  split; [by exists "a", "b.com"|].
  apply (validate_nothing_when_absent_or_revoked "a@b.com" "  00ff3ac4 ").
  by exists "a", "b.com".
Defined.

(** The scenario of C2 from the start: a token is issued, its record is
    marked revoked in the store, and validation then returns nothing. *)
Lemma issued_then_revoked
  (md5_digest : string → list byte) (dateToString : Z → string)
  (E : string) (date now : Z) (db : Redis) :
  containsAt E →
  let this := new_AccessControlDAL E None in
  let token := tokenOf md5_digest dateToString E date in
  let db' := snd (newSessionToken md5_digest dateToString this date now db) in
  fst (validateSessionToken this token db') = Some E ∧
  fst (validateSessionToken this token (markRevoked token db')) = None.
Proof.
  intros HE this token db'. pose proof (isIP_email E HE) as Hip.
  unfold db', this. rewrite newSessionToken_email by done.
  rewrite !validateSessionToken_email by done.
  unfold token. rewrite !trim_tokenOf, hashes_markRevoked.
  cbn [snd hashes emailOrIP new_AccessControlDAL].
  by rewrite lookup_insert_eq.
Qed.

(** C5: for every IP identity (a string without ['@']),
    [newSessionToken()] returns nothing and [validateSessionToken(t)]
    returns nothing for every token [t], whatever the store holds. *)
Theorem ip_identity_has_no_session
  (md5_digest : string → list byte) (dateToString : Z → string)
  (E : string) :
  ¬ containsAt E →
  (∀ (date now : Z) (db : Redis),
     fst (newSessionToken md5_digest dateToString
            (new_AccessControlDAL E None) date now db) = None) ∧
  (∀ (t : string) (db : Redis),
     fst (validateSessionToken (new_AccessControlDAL E None) t db) = None).
Proof.
  intros HE%isIP_ip. split; intros.
  - by rewrite newSessionToken_ip.
  - by rewrite validateSessionToken_ip.
Qed.

Lemma ip_identity_has_no_session_witness :
  ¬ containsAt "127.0.0.1" ∧
  (∀ (date now : Z) (db : Redis),
     fst (newSessionToken sampleDigest sampleDate
            (new_AccessControlDAL "127.0.0.1" None) date now db) = None) ∧
  (∀ (t : string) (db : Redis),
     fst (validateSessionToken (new_AccessControlDAL "127.0.0.1" None) t db)
       = None).
Proof.
  assert (¬ containsAt "127.0.0.1") as Hip
    by (intros H%includes_at; discriminate H).
  split; [exact Hip|].
  exact (ip_identity_has_no_session sampleDigest sampleDate "127.0.0.1" Hip).
Defined.

(** C8: for an email identity, [newSessionToken] returns its token and
    leaves the record it creates under that token with 86400 seconds to
    live; and for every token whose record is present and not revoked,
    [validateSessionToken] succeeds and sets the record's time to live to
    86400 seconds, changing no hash, no sorted set and no other key's time
    to live. *)
Theorem session_ttl_is_one_day
  (md5_digest : string → list byte) (dateToString : Z → string)
  (E : string) (date now : Z) (db : Redis) :
  containsAt E →
  let this := new_AccessControlDAL E None in
  let created := newSessionToken md5_digest dateToString this date now db in
  let issued := tokenOf md5_digest dateToString E date in
  (fst created = Some issued ∧
   hashes (snd created) !! sessionTokenKey issued =
     Some {| createdAt := now; isRevoked := false; userEmail := E |} ∧
   ttls (snd created) !! sessionTokenKey issued = Some 86400) ∧
  (∀ (token : string) (r : SessionToken),
     hashes db !! sessionTokenKey (JsString.trim token) = Some r →
     isRevoked r = false →
     let key := sessionTokenKey (JsString.trim token) in
     let validated := validateSessionToken this token db in
     fst validated = Some (userEmail r) ∧
     ttls (snd validated) !! key = Some 86400 ∧
     hashes (snd validated) = hashes db ∧
     zsets (snd validated) = zsets db ∧
     ∀ k : string, k ≠ key → ttls (snd validated) !! k = ttls db !! k).
Proof.
  intros HE this created issued.
  pose proof (isIP_email E HE) as Hip. split.
  - unfold created, issued, this. rewrite newSessionToken_email by done.
    cbv zeta. cbn [fst snd hashes ttls emailOrIP new_AccessControlDAL].
    split; [done|]. split; apply lookup_insert_eq.
  - intros token r Hr Hrev key validated.
    unfold validated, this, key. rewrite validateSessionToken_email by done.
    rewrite Hr, Hrev. cbn [fst snd ttls hashes zsets].
    repeat split.
    + apply lookup_insert_eq.
    + intros k Hk. by apply lookup_insert_ne.
Qed.

Lemma session_ttl_is_one_day_witness :
  let this := new_AccessControlDAL "a@b.com" None in
  let created := newSessionToken sampleDigest sampleDate this 5 6 emptyRedis in
  let issued := tokenOf sampleDigest sampleDate "a@b.com" 5 in
  let db := snd created in
  let r := {| createdAt := 6; isRevoked := false; userEmail := "a@b.com" |} in
  let key := sessionTokenKey (JsString.trim " 00ff3ac4 ") in
  let validated := validateSessionToken this " 00ff3ac4 " db in
  containsAt "a@b.com" ∧
  (fst created = Some issued ∧
   hashes (snd created) !! sessionTokenKey issued = Some r ∧
   ttls (snd created) !! sessionTokenKey issued = Some 86400) ∧
  (hashes db !! key = Some r ∧ isRevoked r = false) ∧
  (fst validated = Some (userEmail r) ∧
   ttls (snd validated) !! key = Some 86400 ∧
   hashes (snd validated) = hashes db ∧
   zsets (snd validated) = zsets db ∧
   ∀ k : string, k ≠ key → ttls (snd validated) !! k = ttls db !! k).
Proof.
  assert (containsAt "a@b.com") as HE by (by exists "a", "b.com").
  intros this created issued db r key validated.
  assert (hashes db !! key = Some r) as Hr by (vm_compute; reflexivity).
  split; [exact HE|].
  split; [exact (proj1 (session_ttl_is_one_day sampleDigest sampleDate
                          "a@b.com" 5 6 emptyRedis HE))|].
  split; [by split|].
  exact (proj2 (session_ttl_is_one_day sampleDigest sampleDate
                  "a@b.com" 7 8 db HE) " 00ff3ac4 " r Hr eq_refl).
Defined.

(** C9: on the IP branch [newSessionToken()] and [validateSessionToken()]
    issue no store command: the store after the call is the store before
    it, with no session record, time to live or sorted set touched. *)
Theorem ip_identity_leaves_store_alone
  (md5_digest : string → list byte) (dateToString : Z → string)
  (E : string) :
  ¬ containsAt E →
  (∀ (date now : Z) (db : Redis),
     snd (newSessionToken md5_digest dateToString
            (new_AccessControlDAL E None) date now db) = db) ∧
  (∀ (t : string) (db : Redis),
     snd (validateSessionToken (new_AccessControlDAL E None) t db) = db).
Proof.
  intros HE%isIP_ip. split; intros.
  - by rewrite newSessionToken_ip.
  - by rewrite validateSessionToken_ip.
Qed.

Lemma ip_identity_leaves_store_alone_witness :
  ¬ containsAt "127.0.0.1" ∧
  (∀ (date now : Z) (db : Redis),
     snd (newSessionToken sampleDigest sampleDate
            (new_AccessControlDAL "127.0.0.1" None) date now db) = db) ∧
  (∀ (t : string) (db : Redis),
     snd (validateSessionToken (new_AccessControlDAL "127.0.0.1" None) t db)
       = db).
Proof.
  assert (¬ containsAt "127.0.0.1") as Hip
    by (intros H%includes_at; discriminate H).
  split; [exact Hip|].
  exact (ip_identity_leaves_store_alone sampleDigest sampleDate "127.0.0.1" Hip).
Defined.

(** C10: the token [newSessionToken] returns is the MD5 digest string of
    the identity, a colon and the rendering of the clock reading: it
    depends on nothing else, so two calls for the same email identity
    that read the same clock return the same token, whatever the store
    holds and whatever [Date.now()] reads. *)
Theorem token_is_function_of_identity_and_clock
  (md5_digest : string → list byte) (dateToString : Z → string)
  (E : string) (date now1 now2 : Z) (db1 db2 : Redis) :
  containsAt E →
  let this := new_AccessControlDAL E None in
  fst (newSessionToken md5_digest dateToString this date now1 db1)
    = Some (md5_hash md5_digest (E +:+ ":" +:+ dateToString date)) ∧
  fst (newSessionToken md5_digest dateToString this date now2 db2)
    = fst (newSessionToken md5_digest dateToString this date now1 db1).
Proof.
  intros HE this. pose proof (isIP_email E HE) as Hip.
  unfold this. by rewrite !newSessionToken_email.
Qed.

Lemma token_is_function_of_identity_and_clock_witness :
  containsAt "a@b.com" ∧
  let this := new_AccessControlDAL "a@b.com" None in
  let db2 := snd (newSessionToken sampleDigest sampleDate this 5 6 emptyRedis) in
  fst (newSessionToken sampleDigest sampleDate this 5 6 emptyRedis)
    = Some (md5_hash sampleDigest ("a@b.com" +:+ ":" +:+ sampleDate 5)) ∧
  fst (newSessionToken sampleDigest sampleDate this 5 9 db2)
    = fst (newSessionToken sampleDigest sampleDate this 5 6 emptyRedis).
Proof.
  assert (containsAt "a@b.com") as HE by (by exists "a", "b.com").
  split; [exact HE|]. intros this db2.
  exact (token_is_function_of_identity_and_clock sampleDigest sampleDate
           "a@b.com" 5 6 9 emptyRedis db2 HE).
Defined.

(** A second call that reads the same clock writes its record under the
    key of the first and replaces it: the two calls leave one session. *)
Lemma same_clock_same_record
  (md5_digest : string → list byte) (dateToString : Z → string)
  (this : AccessControlDAL) (date now1 now2 : Z) (db : Redis) :
  isIP this = false →
  let db1 := snd (newSessionToken md5_digest dateToString this date now1 db) in
  let db2 := snd (newSessionToken md5_digest dateToString this date now2 db1) in
  hashes db2 =
    <[sessionTokenKey (tokenOf md5_digest dateToString (emailOrIP this) date) :=
        {| createdAt := now2; isRevoked := false; userEmail := emailOrIP this |}]>
      (hashes db).
Proof.
  intros Hip db1 db2. unfold db2, db1.
  rewrite !newSessionToken_email by done. cbn [snd hashes].
  apply insert_insert_eq.
Qed.

(** ** The rate limiter's properties *)

(** C3: [getRequestsTimeStamp()] looks the plan up and removes from the
    identity's set the timestamps with score in [0, now - 3600000] when
    the plan is ["free"], in [0, now - 10800000] otherwise, and nothing
    else; it returns every remaining timestamp, in ascending order.
    Session records and the other identities' sets stay as they were. *)
Theorem getRequestsTimeStamp_prunes_then_lists
  (getPlan : string → string) (this : AccessControlDAL) (now : Z) (db : Redis) :
  let key := limitKey (emailOrIP this) in
  let window :=
    if String.eqb (getPlan (emailOrIP this)) "free" then 3600000 else 10800000 in
  let result := getRequestsTimeStamp getPlan this now db in
  (∀ m : Z, m ∈ redis.members key (snd result) ↔
            m ∈ redis.members key db ∧ ¬ (0 ≤ m ≤ now - window)) ∧
  StronglySorted Z.lt (fst result) ∧
  (∀ m : Z, m ∈ fst result ↔ m ∈ redis.members key (snd result)) ∧
  hashes (snd result) = hashes db ∧
  (∀ key' : string, key' ≠ key →
     redis.members key' (snd result) = redis.members key' db).
Proof.
  intros key window result. unfold result.
  rewrite getRequestsTimeStamp_eq. cbv zeta. cbn [fst snd]. fold key.
  change (if String.eqb (getPlan (emailOrIP this)) "free"
          then freeWindow else paidWindow) with window.
  rewrite members_putMembers, hashes_putMembers.
  split; [|split; [|split; [|split]]].
  - intros m. rewrite elem_of_filter. tauto.
  - apply ranked_ascending.
  - intros m. apply elem_of_ranked.
  - done.
  - intros key' Hne. by apply members_putMembers_ne.
Qed.

(** C4, as the spec words it, fails at the edge of the window: a request
    made exactly one hour before the read is not older than the free
    plan's window, and the read prunes it all the same, because the score
    range it removes includes [now - window]. *)
Lemma hour_old_request_is_pruned :
  let this := new_AccessControlDAL "a@b.com" None in
  samplePlan (emailOrIP this) = "free" ∧
  StronglySorted Z.lt [1000] ∧
  Forall (λ t, 3601000 - t ≤ planWindow (samplePlan (emailOrIP this))) [1000] ∧
  fst (newRequests this [1000] emptyRedis) = [1000] ∧
  fst (getRequestsTimeStamp samplePlan this 3601000
         (snd (newRequests this [1000] emptyRedis))) = [] ∧
  fst (getRequestsTimeStamp samplePlan this 3601000
         (snd (newRequests this [1000] emptyRedis))) ≠ [1000].
Proof.
  cbv zeta. split; [reflexivity|]. split; [repeat constructor|].
  split; [repeat constructor; by vm_compute|].
  split; [by vm_compute|]. split; by vm_compute.
Qed.

(** C4, amended: for an identity with no timestamp stored beforehand,
    after [N] calls of [newRequest()] at strictly increasing clock
    readings, [getRequestsTimeStamp()] returns exactly those [N]
    timestamps in ascending order, provided each of them is younger than
    the plan window at the time of the read ([now - t < window]). *)
Theorem requests_inside_window_are_listed
  (getPlan : string → string) (this : AccessControlDAL)
  (clock : list Z) (now : Z) (db : Redis) :
  redis.members (limitKey (emailOrIP this)) db = ∅ →
  StronglySorted Z.lt clock →
  Forall (λ t, now - t < planWindow (getPlan (emailOrIP this))) clock →
  fst (newRequests this clock db) = clock ∧
  fst (getRequestsTimeStamp getPlan this now (snd (newRequests this clock db)))
    = clock.
Proof.
  intros Hempty Hclock Hyoung.
  destruct (newRequests_eq this clock db) as [Hts Hmem].
  split; [done|].
  rewrite getRequestsTimeStamp_eq. cbv zeta. cbn [fst].
  rewrite Hmem, Hempty, (right_id_L ∅ (∪)).
  fold (planWindow (getPlan (emailOrIP this))).
  rewrite <- (ranked_list_to_set clock Hclock) at 2. f_equal.
  apply set_eq. intros m. rewrite elem_of_filter, elem_of_list_to_set.
  split; [by intros [_ ?]|]. intros Hm. split; [|done].
  rewrite Forall_forall in Hyoung. specialize (Hyoung m Hm). simpl in Hyoung.
  lia.
Qed.

Lemma requests_inside_window_are_listed_witness :
  let this := new_AccessControlDAL "a@b.com" None in
  let clock := [1000; 2000; 3601000] in
  (redis.members (limitKey (emailOrIP this)) emptyRedis = ∅ ∧
   StronglySorted Z.lt clock ∧
   Forall (λ t, 3600999 - t < planWindow (samplePlan (emailOrIP this))) clock) ∧
  fst (newRequests this clock emptyRedis) = clock ∧
  fst (getRequestsTimeStamp samplePlan this 3600999
         (snd (newRequests this clock emptyRedis))) = clock.
Proof.
  intros this clock.
  assert (redis.members (limitKey (emailOrIP this)) emptyRedis = ∅) as H1
    by reflexivity.
  assert (StronglySorted Z.lt clock) as H2
    by (repeat constructor; lia).
  assert (Forall (λ t, 3600999 - t < planWindow (samplePlan (emailOrIP this)))
            clock) as H3
    by (repeat constructor; by vm_compute).
  split; [by repeat split|].
  exact (requests_inside_window_are_listed samplePlan this clock 3600999
           emptyRedis H1 H2 H3).
Defined.

(** C6: whatever the store holds, [resetLimit()] removes every member of
    the identity's set and returns the empty sequence, and a
    [getRequestsTimeStamp()] made next, for any plan and at any time,
    returns the empty sequence too. *)
Theorem resetLimit_clears
  (this : AccessControlDAL) (db : Redis) :
  let key := limitKey (emailOrIP this) in
  fst (resetLimit this db) = [] ∧
  zsets (snd (resetLimit this db)) !! key = None ∧
  redis.members key (snd (resetLimit this db)) = ∅ ∧
  ∀ (getPlan : string → string) (now : Z),
    fst (getRequestsTimeStamp getPlan this now (snd (resetLimit this db))) = [].
Proof.
  intros key. rewrite resetLimit_eq. cbn [fst snd]. fold key.
  split; [done|]. split; [apply zsets_putMembers_empty|].
  split; [apply members_putMembers|].
  intros getPlan now. rewrite getRequestsTimeStamp_eq. cbv zeta. cbn [fst].
  fold key. rewrite members_putMembers.
  assert (filter (λ m, ¬ (0 ≤ m ≤ now - planWindow (getPlan (emailOrIP this))))
            (∅ : gset Z) = ∅) as Hkept by apply filter_empty_L, _.
  unfold planWindow in Hkept. rewrite Hkept. apply ranked_empty.
Qed.

(** C7: [getRequestsTimeStampsOf(I1, ..., In)] returns [n] sequences, the
    [k]-th being what a ZRANGE over all ranks reads for [Ik], every
    stored timestamp in ascending order; the call leaves the store as it
    was, so it prunes nothing. *)
Theorem getRequestsTimeStampsOf_raw_reads
  (emailOrIPs : list string) (db : Redis) :
  let result := getRequestsTimeStampsOf emailOrIPs db in
  fst result = map (λ I, fst (redis.zrange (limitKey I) 0 (-1) db)) emailOrIPs ∧
  length (fst result) = length emailOrIPs ∧
  (∀ (k : nat) (I : string), emailOrIPs !! k = Some I →
     fst result !! k = Some (redis.ranked (redis.members (limitKey I) db))) ∧
  snd result = db.
Proof.
  intros result. unfold result, getRequestsTimeStampsOf.
  rewrite pipeline_eq, app_nil_l, exec_zranges. cbn [fst snd].
  split; [|split; [|split]].
  - apply map_ext. intros I. by rewrite zrange_all.
  - apply length_map.
  - intros k I Hk.
    change (map ?f emailOrIPs) with (f <$> emailOrIPs).
    by rewrite list_lookup_fmap, Hk.
  - done.
Qed.

(** ** Further properties of the session manager *)

Lemma sessionTokenKey_inj (t t' : string) :
  sessionTokenKey t = sessionTokenKey t' → t = t'.
Proof. unfold sessionTokenKey. cbn. intros [= H]. exact H. Qed.

Lemma limitKey_inj (I J : string) : limitKey I = limitKey J → I = J.
Proof. unfold limitKey. cbn. intros [= H]. exact H. Qed.

(** The two key schemes never meet. *)
Lemma sessionTokenKey_ne_limitKey (t I : string) :
  sessionTokenKey t ≠ limitKey I.
Proof. unfold sessionTokenKey, limitKey. simpl. discriminate. Qed.

Lemma trimEnd_cons (c : ascii) (s : string) :
  JsString.trimEnd s ≠ EmptyString →
  JsString.trimEnd (String c s) = String c (JsString.trimEnd s).
Proof. cbn [JsString.trimEnd]. by destruct (JsString.trimEnd s). Qed.

Lemma trimEnd_idem (s : string) :
  JsString.trimEnd (JsString.trimEnd s) = JsString.trimEnd s.
Proof.
  induction s as [|c s IH]; [done|]. cbn [JsString.trimEnd].
  destruct (JsString.trimEnd s) as [|d r] eqn:Hr.
  - destruct (JsString.isWhiteSpace c) eqn:Hc; [done|].
    cbn [JsString.trimEnd]. by rewrite Hc.
  - rewrite trimEnd_cons; by rewrite IH.
Qed.

(** What [trimStart] leaves starts with a code unit that is not white
    space, and [trimEnd] keeps that code unit in front. *)
Lemma trimStart_trimEnd_trimStart (s : string) :
  JsString.trimStart (JsString.trimEnd (JsString.trimStart s))
  = JsString.trimEnd (JsString.trimStart s).
Proof.
  induction s as [|c s IH]; [done|]. cbn [JsString.trimStart].
  destruct (JsString.isWhiteSpace c) eqn:Hc; [done|].
  cbn [JsString.trimEnd].
  destruct (JsString.trimEnd s); rewrite ?Hc; cbn [JsString.trimStart];
    by rewrite Hc.
Qed.

Lemma trim_idem (s : string) : JsString.trim (JsString.trim s) = JsString.trim s.
Proof.
  unfold JsString.trim. by rewrite trimStart_trimEnd_trimStart, trimEnd_idem.
Qed.

(** X1: white space around a token does not count: validating a token and
    validating its trimmed form give the same answer and the same store. *)
Theorem validate_ignores_surrounding_white_space
  (this : AccessControlDAL) (token : string) (db : Redis) :
  validateSessionToken this token db
  = validateSessionToken this (JsString.trim token) db.
Proof.
  unfold validateSessionToken. destruct (isIP this); [done|].
  by rewrite trim_idem.
Qed.

(** X2: the email [validateSessionToken] returns is the one of the
    identity the token was issued to, whichever email identity the
    validating instance was built for. *)
Theorem validate_returns_owner
  (md5_digest : string → list byte) (dateToString : Z → string)
  (owner caller : string) (date now : Z) (db : Redis) :
  containsAt owner → containsAt caller →
  ∀ (token : string) (db' : Redis),
    newSessionToken md5_digest dateToString
      (new_AccessControlDAL owner None) date now db = (Some token, db') →
    fst (validateSessionToken (new_AccessControlDAL caller None) token db')
      = Some owner.
Proof.
  intros Ho%isIP_email Hc%isIP_email token db'.
  rewrite newSessionToken_email by done. cbv zeta. intros [= <- <-].
  rewrite validateSessionToken_email by done.
  rewrite trim_tokenOf. cbn [hashes]. by rewrite lookup_insert_eq.
Qed.

Lemma validate_returns_owner_witness :
  (containsAt "a@b.com" ∧ containsAt "eve@x.org") ∧
  ∀ (token : string) (db' : Redis),
    newSessionToken sampleDigest sampleDate
      (new_AccessControlDAL "a@b.com" None) 5 6 emptyRedis = (Some token, db') →
    fst (validateSessionToken (new_AccessControlDAL "eve@x.org" None) token db')
      = Some "a@b.com".
Proof.
  assert (containsAt "a@b.com") as H1 by (by exists "a", "b.com").
  assert (containsAt "eve@x.org") as H2 by (by exists "eve", "x.org").
  split; [by split|].
  exact (validate_returns_owner sampleDigest sampleDate "a@b.com" "eve@x.org"
           5 6 emptyRedis H1 H2).
Defined.

(** X3: validating again changes nothing: a second [validateSessionToken]
    of the same token gives the answer and the store of the first. *)
Theorem validate_twice_is_validate_once
  (this : AccessControlDAL) (token : string) (db : Redis) :
  validateSessionToken this token
    (snd (validateSessionToken this token db))
  = validateSessionToken this token db.
Proof.
  destruct (isIP this) eqn:Hip.
  - by rewrite !validateSessionToken_ip.
  - rewrite (validateSessionToken_email this token db Hip).
    destruct (hashes db !! sessionTokenKey (JsString.trim token))
      as [r|] eqn:Hr; cbn [snd].
    + destruct (isRevoked r) eqn:Hrev; cbn [snd];
        rewrite validateSessionToken_email by done; cbn [hashes];
        rewrite Hr, Hrev; [done|].
      cbn [zsets ttls]. by rewrite insert_insert_eq.
    + rewrite validateSessionToken_email by done. by rewrite Hr.
Qed.

(** X4: issuing a token leaves every other session as it was: a token
    whose trimmed form is not the new token validates after the call as
    it did before. *)
Theorem issue_leaves_other_tokens
  (md5_digest : string → list byte) (dateToString : Z → string)
  (this other : AccessControlDAL) (token : string) (date now : Z) (db : Redis) :
  JsString.trim token ≠ tokenOf md5_digest dateToString (emailOrIP this) date →
  fst (validateSessionToken other token
         (snd (newSessionToken md5_digest dateToString this date now db)))
  = fst (validateSessionToken other token db).
Proof.
  intros Hne. destruct (isIP this) eqn:Hip.
  - by rewrite newSessionToken_ip.
  - rewrite newSessionToken_email by done. cbv zeta. cbn [snd].
    destruct (isIP other) eqn:Hother.
    + by rewrite !validateSessionToken_ip.
    + rewrite !validateSessionToken_email by done. cbn [hashes].
      rewrite lookup_insert_ne by (by intros ?%sessionTokenKey_inj).
      destruct (hashes db !! sessionTokenKey (JsString.trim token)) as [r|];
        [|done].
      by destruct (isRevoked r).
Qed.

Lemma issue_leaves_other_tokens_witness :
  let this := new_AccessControlDAL "a@b.com" None in
  let db := snd (newSessionToken sampleDigest sampleDate this 5 6 emptyRedis) in
  JsString.trim " 0badc0de " ≠ tokenOf sampleDigest sampleDate (emailOrIP this) 7 ∧
  fst (validateSessionToken this " 0badc0de "
         (snd (newSessionToken sampleDigest sampleDate this 7 8 db)))
  = fst (validateSessionToken this " 0badc0de " db).
Proof.
  intros this db.
  assert (JsString.trim " 0badc0de "
          ≠ tokenOf sampleDigest sampleDate (emailOrIP this) 7) as Hne
    by (vm_compute; discriminate).
  split; [exact Hne|].
  exact (issue_leaves_other_tokens sampleDigest sampleDate this this
           " 0badc0de " 7 8 db Hne).
Defined.

(** X5: the flag decides, not the string: an instance built with [isIP]
    passed as [true] gets no session and touches nothing even when its
    identity has an ['@'], and one built with [isIP] passed as [false]
    is issued a token that validates to its identity even when the
    identity has none. *)
Theorem explicit_flag_decides
  (md5_digest : string → list byte) (dateToString : Z → string)
  (E token : string) (date now : Z) (db : Redis) :
  newSessionToken md5_digest dateToString
    (new_AccessControlDAL E (Some true)) date now db = (None, db) ∧
  validateSessionToken (new_AccessControlDAL E (Some true)) token db
    = (None, db) ∧
  fst (newSessionToken md5_digest dateToString
         (new_AccessControlDAL E (Some false)) date now db)
    = Some (tokenOf md5_digest dateToString E date) ∧
  fst (validateSessionToken (new_AccessControlDAL E (Some false))
         (tokenOf md5_digest dateToString E date)
         (snd (newSessionToken md5_digest dateToString
                 (new_AccessControlDAL E (Some false)) date now db)))
    = Some E.
Proof.
  split; [by apply newSessionToken_ip|].
  split; [by apply validateSessionToken_ip|].
  rewrite newSessionToken_email by done. cbv zeta. split; [done|].
  rewrite validateSessionToken_email by done.
  rewrite trim_tokenOf. cbn [snd hashes]. by rewrite lookup_insert_eq.
Qed.

Lemma isIP_email_inv (E : string) :
  isIP (new_AccessControlDAL E None) = false → containsAt E.
Proof.
  intros Hip. destruct (JsString.includes "@" E) eqn:Hi.
  - by apply includes_at.
  - simpl in Hip. by rewrite Hi in Hip.
Qed.

(** X6: left to its default, the flag is [false] exactly for the strings
    that have an ['@'] somewhere, wherever it stands. *)
Theorem default_flag_classifies (E : string) :
  isIP (new_AccessControlDAL E None) = false ↔ containsAt E.
Proof. split; [apply isIP_email_inv | apply isIP_email]. Qed.

(** ** Further properties of the rate limiter *)

Lemma putMembers_shrink (key : string) (z z' : gset Z) (db : Redis) :
  (z = ∅ → z' = ∅) →
  redis.putMembers key z' (redis.putMembers key z db)
  = redis.putMembers key z' db.
Proof.
  intros Hz. unfold redis.putMembers.
  destruct (decide (z = ∅)) as [Hempty|Hfull].
  - rewrite (Hz Hempty), decide_True by done. cbn [hashes zsets ttls].
    by rewrite !delete_delete_eq.
  - destruct (decide (z' = ∅)); cbn [hashes zsets ttls].
    + by rewrite delete_insert_eq.
    + by rewrite insert_insert_eq.
Qed.

Lemma zsets_putMembers_ne (key key' : string) (z : gset Z) (db : Redis) :
  key ≠ key' → zsets (redis.putMembers key z db) !! key' = zsets db !! key'.
Proof.
  intros Hne. unfold redis.putMembers. case_decide; cbn [zsets].
  - by apply lookup_delete_ne.
  - by apply lookup_insert_ne.
Qed.

Section LimitsMore.
Variable getPlan : string → string.

(** What a read returns depends on the identity's set only. *)
Lemma read_depends_on_members this now db1 db2 :
  redis.members (limitKey (emailOrIP this)) db1
  = redis.members (limitKey (emailOrIP this)) db2 →
  fst (getRequestsTimeStamp getPlan this now db1)
  = fst (getRequestsTimeStamp getPlan this now db2).
Proof.
  intros Hm. rewrite !getRequestsTimeStamp_eq. cbv zeta. cbn [fst].
  by rewrite Hm.
Qed.

(** The answer of a validation depends on the hashes only. *)
Lemma validate_depends_on_hashes this token db1 db2 :
  hashes db1 = hashes db2 →
  fst (validateSessionToken this token db1)
  = fst (validateSessionToken this token db2).
Proof.
  intros Hh. destruct (isIP this) eqn:Hip.
  - by rewrite !validateSessionToken_ip.
  - rewrite !validateSessionToken_email by done. rewrite Hh.
    destruct (hashes db2 !! _) as [r|]; [|done]. by destruct (isRevoked r).
Qed.

(** A read after a run of requests, whatever the store held. *)
Lemma read_after_requests this clock now db :
  fst (getRequestsTimeStamp getPlan this now (snd (newRequests this clock db)))
  = redis.ranked
      (filter (λ m, ¬ (0 ≤ m ≤ now - planWindow (getPlan (emailOrIP this))))
         (list_to_set clock ∪ redis.members (limitKey (emailOrIP this)) db)).
Proof.
  destruct (newRequests_eq this clock db) as [_ Hmem].
  rewrite getRequestsTimeStamp_eq. cbv zeta. cbn [fst]. by rewrite Hmem.
Qed.

End LimitsMore.

(** X7: two requests that read the same clock are recorded as one: the
    second [newRequest] returns the same timestamp and leaves the store
    of the first. *)
Theorem same_reading_counts_once
  (this : AccessControlDAL) (now : Z) (db : Redis) :
  newRequest this now (snd (newRequest this now db)) = newRequest this now db.
Proof.
  rewrite !newRequest_eq. cbn [snd]. f_equal.
  rewrite members_putMembers.
  replace ({[now]} ∪ ({[now]} ∪ redis.members (limitKey (emailOrIP this)) db))
    with ({[now]} ∪ redis.members (limitKey (emailOrIP this)) db).
  - by apply putMembers_shrink.
  - apply set_eq. intros m. rewrite !elem_of_union. tauto.
Qed.

(** X8: a request at a clock reading not yet stored makes the identity's
    full range one entry longer, and [newRequest] removes nothing: every
    timestamp stored before is still stored. *)
Theorem fresh_request_adds_one_entry
  (this : AccessControlDAL) (now : Z) (db : Redis) :
  now ∉ redis.members (limitKey (emailOrIP this)) db →
  let key := limitKey (emailOrIP this) in
  let db' := snd (newRequest this now db) in
  length (fst (redis.zrange key 0 (-1) db'))
    = S (length (fst (redis.zrange key 0 (-1) db))) ∧
  ∀ m : Z, m ∈ fst (redis.zrange key 0 (-1) db) →
           m ∈ fst (redis.zrange key 0 (-1) db').
Proof.
  intros Hfresh key db'. unfold db'. rewrite newRequest_eq, !zrange_all.
  cbn [fst snd]. fold key. rewrite members_putMembers. split.
  - unfold redis.ranked. rewrite !merge_sort_Permutation.
    by rewrite elements_union_singleton.
  - intros m. rewrite !elem_of_ranked, elem_of_union. tauto.
Qed.

Lemma fresh_request_adds_one_entry_witness :
  let this := new_AccessControlDAL "10.0.0.7" None in
  let db := snd (newRequests this [1000; 3000] emptyRedis) in
  let key := limitKey (emailOrIP this) in
  let db' := snd (newRequest this 2000 db) in
  (2000 ∉ redis.members key db) ∧
  length (fst (redis.zrange key 0 (-1) db'))
    = S (length (fst (redis.zrange key 0 (-1) db))) ∧
  ∀ m : Z, m ∈ fst (redis.zrange key 0 (-1) db) →
           m ∈ fst (redis.zrange key 0 (-1) db').
Proof.
  intros this db key db'.
  assert (2000 ∉ redis.members key db) as Hfresh
    by (apply (bool_decide_unpack _); vm_compute; exact I).
  split; [exact Hfresh|].
  exact (fresh_request_adds_one_entry this 2000 db Hfresh).
Defined.

(** X9: limits are kept per identity: a request, a read or a reset made
    for one identity leaves what a read returns for any other identity
    as it was. *)
Theorem identities_do_not_share_limits
  (getPlan : string → string) (this other : AccessControlDAL)
  (now now' : Z) (db : Redis) :
  emailOrIP this ≠ emailOrIP other →
  let read := λ db, fst (getRequestsTimeStamp getPlan other now' db) in
  read (snd (newRequest this now db)) = read db ∧
  read (snd (getRequestsTimeStamp getPlan this now db)) = read db ∧
  read (snd (resetLimit this db)) = read db.
Proof.
  intros Hne read.
  assert (limitKey (emailOrIP this) ≠ limitKey (emailOrIP other)) as Hkey
    by (by intros ?%limitKey_inj).
  unfold read. repeat split; apply read_depends_on_members.
  - rewrite newRequest_eq. by apply members_putMembers_ne.
  - rewrite getRequestsTimeStamp_eq. by apply members_putMembers_ne.
  - rewrite resetLimit_eq. by apply members_putMembers_ne.
Qed.

Lemma identities_do_not_share_limits_witness :
  let this := new_AccessControlDAL "a@b.com" None in
  let other := new_AccessControlDAL "10.0.0.7" None in
  let db := snd (newRequests other [1000; 3000] emptyRedis) in
  let read := λ db, fst (getRequestsTimeStamp samplePlan other 5000 db) in
  emailOrIP this ≠ emailOrIP other ∧
  read (snd (newRequest this 4000 db)) = read db ∧
  read (snd (getRequestsTimeStamp samplePlan this 4000 db)) = read db ∧
  read (snd (resetLimit this db)) = read db.
Proof.
  intros this other db read.
  assert (emailOrIP this ≠ emailOrIP other) as Hne by discriminate.
  split; [exact Hne|].
  exact (identities_do_not_share_limits samplePlan this other 4000 5000 db Hne).
Defined.

(** X10: the two halves of the class do not meet in the store: no request,
    read or reset changes the answer of a validation, and no session call
    changes what a read returns. *)
Theorem sessions_and_limits_are_independent
  (md5_digest : string → list byte) (dateToString : Z → string)
  (getPlan : string → string) (this other : AccessControlDAL)
  (token : string) (date now now' : Z) (db : Redis) :
  let validate := λ db, fst (validateSessionToken other token db) in
  let read := λ db, fst (getRequestsTimeStamp getPlan other now' db) in
  (validate (snd (newRequest this now db)) = validate db ∧
   validate (snd (getRequestsTimeStamp getPlan this now db)) = validate db ∧
   validate (snd (resetLimit this db)) = validate db) ∧
  (read (snd (newSessionToken md5_digest dateToString this date now db))
     = read db ∧
   read (snd (validateSessionToken this token db)) = read db).
Proof.
  intros validate read. unfold validate, read. split.
  - repeat split; apply validate_depends_on_hashes.
    + rewrite newRequest_eq. apply hashes_putMembers.
    + rewrite getRequestsTimeStamp_eq. apply hashes_putMembers.
    + rewrite resetLimit_eq. apply hashes_putMembers.
  - split; apply read_depends_on_members; unfold redis.members.
    + destruct (isIP this) eqn:Hip.
      * by rewrite newSessionToken_ip.
      * by rewrite newSessionToken_email.
    + destruct (isIP this) eqn:Hip.
      * by rewrite validateSessionToken_ip.
      * rewrite validateSessionToken_email by done.
        destruct (hashes db !! _) as [r|]; [|done]. by destruct (isRevoked r).
Qed.

(** X11: a read prunes for the reads that follow: a read made at [now]
    and then one made at a later [now'] give, answer and store, what the
    read at [now'] alone gives; in particular a read repeated at the same
    time changes nothing. *)
Theorem later_read_subsumes_earlier
  (getPlan : string → string) (this : AccessControlDAL)
  (now now' : Z) (db : Redis) :
  now ≤ now' →
  getRequestsTimeStamp getPlan this now'
    (snd (getRequestsTimeStamp getPlan this now db))
  = getRequestsTimeStamp getPlan this now' db.
Proof.
  intros Hle. rewrite !getRequestsTimeStamp_eq. cbv zeta. cbn [snd].
  rewrite members_putMembers.
  generalize (if String.eqb (getPlan (emailOrIP this)) "free"
              then freeWindow else paidWindow). intros w.
  set (M := redis.members (limitKey (emailOrIP this)) db).
  assert (filter (λ m, ¬ (0 ≤ m ≤ now' - w)) (filter (λ m, ¬ (0 ≤ m ≤ now - w)) M)
          = filter (λ m, ¬ (0 ≤ m ≤ now' - w)) M) as Hkept.
  { apply set_eq. intros m. rewrite !elem_of_filter.
    split; [tauto|]. intros [Hm ?]. repeat split; [done| |done]. lia. }
  rewrite Hkept. f_equal. apply putMembers_shrink.
  intros Hempty. rewrite <- Hkept, Hempty. by apply filter_empty_L, _.
Qed.

Lemma later_read_subsumes_earlier_witness :
  let this := new_AccessControlDAL "a@b.com" None in
  let db := snd (newRequests this [1000; 2000; 3000] emptyRedis) in
  3601500 ≤ 3602500 ∧
  getRequestsTimeStamp samplePlan this 3602500
    (snd (getRequestsTimeStamp samplePlan this 3601500 db))
  = getRequestsTimeStamp samplePlan this 3602500 db.
Proof.
  intros this db.
  assert (3601500 ≤ 3602500) as Hle by lia.
  split; [exact Hle|].
  exact (later_read_subsumes_earlier samplePlan this 3601500 3602500 db Hle).
Defined.

(** X12: the bulk read sees what the pruning read left: right after
    [getRequestsTimeStamp()], [getRequestsTimeStampsOf] of the same
    identity returns the one sequence that call returned. *)
Theorem bulk_read_after_read_agrees
  (getPlan : string → string) (this : AccessControlDAL) (now : Z) (db : Redis) :
  fst (getRequestsTimeStampsOf [emailOrIP this]
         (snd (getRequestsTimeStamp getPlan this now db)))
  = [fst (getRequestsTimeStamp getPlan this now db)].
Proof.
  unfold getRequestsTimeStampsOf. rewrite pipeline_eq, app_nil_l, exec_zranges.
  rewrite getRequestsTimeStamp_eq. cbv zeta. cbn [fst snd map].
  by rewrite members_putMembers.
Qed.

(** X13: a request is seen by every read made before it is a window old,
    whatever the store held before: the timestamp [newRequest()] recorded
    is in the sequence [getRequestsTimeStamp()] returns. *)
Theorem recorded_request_is_read
  (getPlan : string → string) (this : AccessControlDAL)
  (t now : Z) (db : Redis) :
  now - t < planWindow (getPlan (emailOrIP this)) →
  t ∈ fst (getRequestsTimeStamp getPlan this now (snd (newRequest this t db))).
Proof.
  intros Hyoung. rewrite getRequestsTimeStamp_eq, newRequest_eq.
  cbv zeta. cbn [fst snd]. rewrite members_putMembers.
  apply elem_of_ranked, elem_of_filter. split.
  - unfold planWindow in Hyoung. lia.
  - apply elem_of_union_l. by apply elem_of_singleton.
Qed.

Lemma recorded_request_is_read_witness :
  let this := new_AccessControlDAL "10.0.0.7" None in
  let db := snd (newRequests this [1000; 3000] emptyRedis) in
  9000000 - 2000 < planWindow (samplePlan (emailOrIP this)) ∧
  2000 ∈ fst (getRequestsTimeStamp samplePlan this 9000000
                (snd (newRequest this 2000 db))).
Proof.
  intros this db.
  assert (9000000 - 2000 < planWindow (samplePlan (emailOrIP this))) as Hyoung
    by (by vm_compute).
  split; [exact Hyoung|].
  exact (recorded_request_is_read samplePlan this 2000 9000000 db Hyoung).
Defined.

(** X14: the plan decides for a request between one and three hours old:
    on the ["free"] plan a read no longer returns it, on any other plan
    it still does. *)
Theorem plan_decides_between_one_and_three_hours
  (getPlan : string → string) (this : AccessControlDAL)
  (t now : Z) (db : Redis) :
  0 ≤ t → 3600000 ≤ now - t < 10800000 →
  let read :=
    fst (getRequestsTimeStamp getPlan this now (snd (newRequest this t db))) in
  (getPlan (emailOrIP this) = "free" → t ∉ read) ∧
  (getPlan (emailOrIP this) ≠ "free" → t ∈ read).
Proof.
  intros Ht Hage read. unfold read.
  rewrite getRequestsTimeStamp_eq, newRequest_eq.
  cbv zeta. cbn [fst snd]. rewrite members_putMembers.
  unfold freeWindow, paidWindow. split.
  - intros ->. cbn [String.eqb Ascii.eqb Bool.eqb].
    rewrite elem_of_ranked, elem_of_filter. intros [Hkept _]. lia.
  - intros Hplan%String.eqb_neq. rewrite Hplan.
    apply elem_of_ranked, elem_of_filter. split; [lia|].
    apply elem_of_union_l. by apply elem_of_singleton.
Qed.

Lemma plan_decides_between_one_and_three_hours_witness :
  let this := new_AccessControlDAL "a@b.com" None in
  let read :=
    fst (getRequestsTimeStamp samplePlan this 7201000
           (snd (newRequest this 1000 emptyRedis))) in
  (0 ≤ 1000 ∧ 3600000 ≤ 7201000 - 1000 < 10800000) ∧
  (samplePlan (emailOrIP this) = "free" → 1000 ∉ read) ∧
  (samplePlan (emailOrIP this) ≠ "free" → 1000 ∈ read).
Proof.
  intros this.
  assert (0 ≤ 1000) as H1 by lia.
  assert (3600000 ≤ 7201000 - 1000 < 10800000) as H2 by lia.
  split; [by split|].
  exact (plan_decides_between_one_and_three_hours samplePlan this 1000 7201000
           emptyRedis H1 H2).
Defined.

(** X15: a reset gives a clean start whatever was stored: after
    [resetLimit()], requests made at strictly increasing clock readings
    and read while each is younger than the plan window come back exactly,
    in ascending order. *)
Theorem reset_then_requests_are_listed
  (getPlan : string → string) (this : AccessControlDAL)
  (clock : list Z) (now : Z) (db : Redis) :
  StronglySorted Z.lt clock →
  Forall (λ t, now - t < planWindow (getPlan (emailOrIP this))) clock →
  fst (getRequestsTimeStamp getPlan this now
         (snd (newRequests this clock (snd (resetLimit this db)))))
  = clock.
Proof.
  intros Hclock Hyoung. rewrite read_after_requests, resetLimit_eq.
  cbn [snd]. rewrite members_putMembers, (right_id_L ∅ (∪)).
  rewrite <- (ranked_list_to_set clock Hclock) at 2. f_equal.
  apply set_eq. intros m. rewrite elem_of_filter, elem_of_list_to_set.
  split; [by intros [_ ?]|]. intros Hm. split; [|done].
  rewrite Forall_forall in Hyoung. specialize (Hyoung m Hm). simpl in Hyoung.
  lia.
Qed.

Lemma reset_then_requests_are_listed_witness :
  let this := new_AccessControlDAL "10.0.0.7" None in
  let db := snd (newRequests this [5; 7; 4000000] emptyRedis) in
  let clock := [5000000; 5000001] in
  (StronglySorted Z.lt clock ∧
   Forall (λ t, 6000000 - t < planWindow (samplePlan (emailOrIP this))) clock) ∧
  fst (getRequestsTimeStamp samplePlan this 6000000
         (snd (newRequests this clock (snd (resetLimit this db)))))
  = clock.
Proof.
  intros this db clock.
  assert (StronglySorted Z.lt clock) as H1 by (repeat constructor; lia).
  assert (Forall (λ t, 6000000 - t < planWindow (samplePlan (emailOrIP this)))
            clock) as H2
    by (repeat constructor; by vm_compute).
  split; [by split|].
  exact (reset_then_requests_are_listed samplePlan this clock 6000000 db H1 H2).
Defined.

(** ** What every reachable store looks like *)

Lemma sessionsWellFormed_putMembers (I : string) (z : gset Z) (db : Redis) :
  sessionsWellFormed db →
  sessionsWellFormed (redis.putMembers (limitKey I) z db).
Proof.
  intros Hwf key r. rewrite hashes_putMembers. intros Hr.
  destruct (Hwf key r Hr) as ([token ->] & Hemail & Hrev & Httl).
  repeat split; eauto.
  unfold redis.putMembers. case_decide; cbn [ttls]; [|done].
  rewrite lookup_delete_ne; [done|].
  intros Heq. by apply (sessionTokenKey_ne_limitKey token I).
Qed.

Lemma limitsWellFormed_putMembers (I : string) (z : gset Z) (db : Redis) :
  limitsWellFormed db →
  limitsWellFormed (redis.putMembers (limitKey I) z db).
Proof.
  intros [Hz Httl]. unfold redis.putMembers.
  case_decide as Hempty; split; cbn [hashes zsets ttls].
  - intros key z' [_ Hz']%lookup_delete_Some. eauto.
  - intros key s [_ Hs]%lookup_delete_Some. eauto.
  - intros key z' [[<- <-]|[_ Hz']]%lookup_insert_Some; eauto.
  - done.
Qed.

Section Reachable.
Variable md5_digest : string → list byte.
Variable dateToString : Z → string.
Variable getPlan : string → string.

Lemma perform_limiter_call (c : Call) (db : Redis) :
  match c with
  | NewSessionToken _ _ _ | ValidateSessionToken _ _ => True
  | GetRequestsTimeStampsOf _ =>
      perform md5_digest dateToString getPlan c db = db
  | GetRequestsTimeStamp who _ | NewRequest who _ | ResetLimit who =>
      ∃ z, perform md5_digest dateToString getPlan c db
           = redis.putMembers (limitKey who) z db
  end.
Proof.
  destruct c as [| |I now|I now|Is|I]; cbn [perform]; try done.
  - rewrite getRequestsTimeStamp_eq. cbv zeta. cbn [snd]. eauto.
  - rewrite newRequest_eq. cbn [snd]. eauto.
  - unfold getRequestsTimeStampsOf.
    by rewrite pipeline_eq, app_nil_l, exec_zranges.
  - rewrite resetLimit_eq. cbn [snd]. eauto.
Qed.

Lemma perform_sessionsWellFormed (c : Call) (db : Redis) :
  sessionsWellFormed db →
  sessionsWellFormed (perform md5_digest dateToString getPlan c db).
Proof.
  intros Hwf. pose proof (perform_limiter_call c db) as Hc.
  destruct c as [E date now|E token|I now|I now|Is|I].
  - cbn [perform]. destruct (isIP (new_AccessControlDAL E None)) eqn:Hip.
    + by rewrite newSessionToken_ip.
    + rewrite newSessionToken_email by done. cbv zeta. cbn [snd emailOrIP
        new_AccessControlDAL].
      intros key r. cbn [hashes ttls].
      intros [[<- <-]|[Hne Hr]]%lookup_insert_Some.
      * repeat split; eauto.
        -- by apply isIP_email_inv.
        -- rewrite lookup_insert_eq. eauto.
      * destruct (Hwf key r Hr) as (? & ? & ? & ?).
        repeat split; eauto. by rewrite lookup_insert_ne.
  - cbn [perform]. destruct (isIP (new_AccessControlDAL E None)) eqn:Hip.
    + by rewrite validateSessionToken_ip.
    + rewrite validateSessionToken_email by done.
      destruct (hashes db !! sessionTokenKey (JsString.trim token))
        as [r0|] eqn:Hr0; [|done].
      destruct (isRevoked r0); [done|]. cbn [snd].
      intros key r. cbn [hashes ttls]. intros Hr.
      destruct (Hwf key r Hr) as (? & ? & ? & ?). repeat split; eauto.
      destruct (decide (sessionTokenKey (JsString.trim token) = key)) as [<-|].
      * rewrite lookup_insert_eq. eauto.
      * by rewrite lookup_insert_ne.
  - destruct Hc as [z ->]. by apply sessionsWellFormed_putMembers.
  - destruct Hc as [z ->]. by apply sessionsWellFormed_putMembers.
  - by rewrite Hc.
  - destruct Hc as [z ->]. by apply sessionsWellFormed_putMembers.
Qed.

Lemma perform_limitsWellFormed (c : Call) (db : Redis) :
  limitsWellFormed db →
  limitsWellFormed (perform md5_digest dateToString getPlan c db).
Proof.
  intros Hwf. pose proof (perform_limiter_call c db) as Hc.
  destruct c as [E date now|E token|I now|I now|Is|I].
  - cbn [perform]. destruct (isIP (new_AccessControlDAL E None)) eqn:Hip.
    + by rewrite newSessionToken_ip.
    + rewrite newSessionToken_email by done. cbv zeta. cbn [snd].
      destruct Hwf as [Hz Httl]. split; cbn [hashes zsets ttls]; [done|].
      intros key s [[<- <-]|[Hne Hs]]%lookup_insert_Some.
      * rewrite lookup_insert_eq. eauto.
      * rewrite lookup_insert_ne by done. eauto.
  - cbn [perform]. destruct (isIP (new_AccessControlDAL E None)) eqn:Hip.
    + by rewrite validateSessionToken_ip.
    + rewrite validateSessionToken_email by done.
      destruct (hashes db !! sessionTokenKey (JsString.trim token))
        as [r0|] eqn:Hr0; [|done].
      destruct (isRevoked r0); [done|]. cbn [snd].
      destruct Hwf as [Hz Httl]. split; cbn [hashes zsets ttls]; [done|].
      intros key s [[<- <-]|[Hne Hs]]%lookup_insert_Some; eauto.
  - destruct Hc as [z ->]. by apply limitsWellFormed_putMembers.
  - destruct Hc as [z ->]. by apply limitsWellFormed_putMembers.
  - by rewrite Hc.
  - destruct Hc as [z ->]. by apply limitsWellFormed_putMembers.
Qed.

Lemma performAll_invariant (P : Redis → Prop) (calls : list Call) (db : Redis) :
  (∀ c db, P db → P (perform md5_digest dateToString getPlan c db)) →
  P db → P (performAll md5_digest dateToString getPlan calls db).
Proof.
  intros Hstep. revert db.
  induction calls as [|c calls IH]; intros db Hdb; [done|].
  cbn [performAll foldl]. apply IH, Hstep, Hdb.
Qed.

End Reachable.

(** X16: whatever calls were made on instances built by default, starting
    from the empty store, every session record in the store is kept under
    a [sessionToken:] key, belongs to an identity with an ['@'], is not
    revoked and carries a time to live: no session is kept for ever. *)
Theorem reachable_sessions_are_well_formed
  (md5_digest : string → list byte) (dateToString : Z → string)
  (getPlan : string → string) (calls : list Call) :
  ∀ (key : string) (r : SessionToken),
    hashes (performAll md5_digest dateToString getPlan calls emptyRedis) !! key
      = Some r →
    (∃ token : string, key = sessionTokenKey token) ∧
    containsAt (userEmail r) ∧
    isRevoked r = false ∧
    is_Some
      (ttls (performAll md5_digest dateToString getPlan calls emptyRedis) !! key).
Proof.
  apply (performAll_invariant md5_digest dateToString getPlan sessionsWellFormed).
  - apply perform_sessionsWellFormed.
  - intros key r Hr. cbn in Hr. by rewrite lookup_empty in Hr.
Qed.

Lemma reachable_sessions_are_well_formed_witness :
  let calls := [NewSessionToken "a@b.com" 5 6; NewRequest "a@b.com" 7;
                ValidateSessionToken "a@b.com" "00ff3ac4 ";
                ResetLimit "a@b.com"] in
  let db := performAll sampleDigest sampleDate samplePlan calls emptyRedis in
  let key := sessionTokenKey "00ff3ac4" in
  let r := {| createdAt := 6; isRevoked := false; userEmail := "a@b.com" |} in
  hashes db !! key = Some r ∧
  (∃ token : string, key = sessionTokenKey token) ∧
  containsAt (userEmail r) ∧
  isRevoked r = false ∧
  is_Some (ttls db !! key).
Proof.
  intros calls db key r.
  assert (hashes db !! key = Some r) as Hr by (vm_compute; reflexivity).
  split; [exact Hr|].
  exact (reachable_sessions_are_well_formed sampleDigest sampleDate samplePlan
           calls key r Hr).
Defined.

(** X17: in such a store every sorted set is kept under a [limit:] key and
    has a member, and the rate limiter never gives a key a time to live:
    the only keys that expire are session records. *)
Theorem reachable_limits_are_well_formed
  (md5_digest : string → list byte) (dateToString : Z → string)
  (getPlan : string → string) (calls : list Call) :
  let db := performAll md5_digest dateToString getPlan calls emptyRedis in
  (∀ (key : string) (z : gset Z),
     zsets db !! key = Some z →
     (∃ emailOrIP : string, key = limitKey emailOrIP) ∧ z ≠ ∅) ∧
  (∀ (key : string) (seconds : Z),
     ttls db !! key = Some seconds → is_Some (hashes db !! key)).
Proof.
  apply (performAll_invariant md5_digest dateToString getPlan limitsWellFormed).
  - apply perform_limitsWellFormed.
  - split; intros key ? H; cbn in H; by rewrite lookup_empty in H.
Qed.

Lemma reachable_limits_are_well_formed_witness :
  let calls := [NewSessionToken "a@b.com" 5 6; NewRequest "a@b.com" 7;
                ResetLimit "10.0.0.7"; GetRequestsTimeStamp "a@b.com" 8] in
  let db := performAll sampleDigest sampleDate samplePlan calls emptyRedis in
  (zsets db !! limitKey "a@b.com" = Some {[7]} ∧
   ttls db !! sessionTokenKey "00ff3ac4" = Some 86400) ∧
  ((∃ emailOrIP : string, limitKey "a@b.com" = limitKey emailOrIP) ∧
   ({[7]} : gset Z) ≠ ∅) ∧
  is_Some (hashes db !! sessionTokenKey "00ff3ac4").
Proof.
  intros calls db.
  assert (zsets db !! limitKey "a@b.com" = Some {[7]}) as Hz
    by (vm_compute; reflexivity).
  assert (ttls db !! sessionTokenKey "00ff3ac4" = Some 86400) as Httl
    by (vm_compute; reflexivity).
  split; [by split|].
  destruct (reachable_limits_are_well_formed sampleDigest sampleDate samplePlan
              calls) as [Hsets Hlive].
  split; [exact (Hsets _ _ Hz) | exact (Hlive _ _ Httl)].
Defined.

(** X18: the class never revokes: after any calls from the empty store, an
    email identity's validation fails only for a token that has no record,
    and otherwise returns the record's email. *)
Theorem validation_fails_only_for_unknown_tokens
  (md5_digest : string → list byte) (dateToString : Z → string)
  (getPlan : string → string) (calls : list Call) (E token : string) :
  containsAt E →
  let db := performAll md5_digest dateToString getPlan calls emptyRedis in
  fst (validateSessionToken (new_AccessControlDAL E None) token db)
  = userEmail <$> hashes db !! sessionTokenKey (JsString.trim token).
Proof.
  intros HE%isIP_email db.
  rewrite validateSessionToken_email by done.
  destruct (hashes db !! sessionTokenKey (JsString.trim token)) as [r|] eqn:Hr;
    [|done].
  assert (sessionsWellFormed db) as Hwf.
  { apply (performAll_invariant md5_digest dateToString getPlan
             sessionsWellFormed).
    - apply perform_sessionsWellFormed.
    - intros key r' Hr'. cbn in Hr'. by rewrite lookup_empty in Hr'. }
  destruct (Hwf _ _ Hr) as (_ & _ & -> & _). done.
Qed.

Lemma validation_fails_only_for_unknown_tokens_witness :
  let calls := [NewSessionToken "a@b.com" 5 6; NewRequest "a@b.com" 7;
                ResetLimit "a@b.com"; ValidateSessionToken "1.2.3.4" "x"] in
  let db := performAll sampleDigest sampleDate samplePlan calls emptyRedis in
  containsAt "c@d.org" ∧
  fst (validateSessionToken (new_AccessControlDAL "c@d.org" None)
         " 00ff3ac4" db)
  = userEmail <$> hashes db !! sessionTokenKey (JsString.trim " 00ff3ac4").
Proof.
  intros calls db.
  assert (containsAt "c@d.org") as HE by (by exists "c", "d.org").
  split; [exact HE|].
  exact (validation_fails_only_for_unknown_tokens sampleDigest sampleDate
           samplePlan calls "c@d.org" " 00ff3ac4" HE).
Defined.
